(** * Shallow embedding of the lexer in src/Lexer/src/Lexer.cpp

    The C++ [Lexer] object is a record holding the input text, the scan
    cursor [position] and the [keywords] map (an [unordered_map<string,
    TokenType>], modelled as a stdpp [gmap string TokenType]).  Every member
    function is written as explicit state passing over that record.

    Reading the braces of [tokenize] exactly as they stand in the source:
    - the [isDigit] branch closes its inner [if (number.find('.') ...)]
      only after the [push_back], so an [else { position++; }] belongs to
      that inner [if];
    - the [else if] chain for operators, delimiters and unknown characters
      continues the outer [if (isWhitespace(c))] chain;
    - [return tokens;] (line 201) is the last statement of the [while]
      body, so the loop body always returns; when the loop condition is
      false at entry, control reaches the end of a non-void function. *)

From Stdlib Require Import Ascii String ZArith Lia.
From stdpp Require Import base gmap strings list.

Open Scope string_scope.

(** ** Data model *)

(** [enum class TokenType] *)
Inductive TokenType :=
| Keyword
| Identifier
| Integer
| Float
| String_
| Operator
| Delimiter
| Unknown.

(** A value-initialised [TokenType] (what [operator[]] inserts on a miss)
    is the enumerator of value 0, i.e. [Keyword]. *)
Definition TokenType_default : TokenType := Keyword.

(** [struct Token] *)
Record Token := mkToken { type : TokenType; value : string }.

(** [class Lexer]: its three data members. *)
Record Lexer := mkLexer {
  input : string;
  position : nat;
  keywords : gmap string TokenType
}.

Definition set_position (lx : Lexer) (p : nat) : Lexer :=
  mkLexer (input lx) p (keywords lx).

Definition set_keywords (lx : Lexer) (m : gmap string TokenType) : Lexer :=
  mkLexer (input lx) (position lx) m.

(** ** C++ library operations used by the lexer *)

(** [input[i]]: for [i = size()] the C++ string yields the terminator. *)
Definition char_at (s : string) (i : nat) : ascii :=
  match String.get i s with Some c => c | None => "000"%char end.

(** [char] is signed: its value as an [int] after promotion. *)
Definition char_value (c : ascii) : Z :=
  let n := Z.of_nat (nat_of_ascii c) in
  if (n <? 128)%Z then n else (n - 256)%Z.

(** A two-character literal such as ['//'] or [':3'] is an [int] whose
    value is implementation-defined; GCC and Clang give
    [256 * first + second]. *)
Definition multichar_value (a b : ascii) : Z :=
  (256 * Z.of_nat (nat_of_ascii a) + Z.of_nat (nat_of_ascii b))%Z.

(** [c == 'x'] after integral promotion. *)
Definition char_eq (c d : ascii) : bool := (char_value c =? char_value d)%Z.

Definition char_eq_multi (c a b : ascii) : bool :=
  (char_value c =? multichar_value a b)%Z.

(** [keywords.find(k) != keywords.end()] *)
Definition map_found (m : gmap string TokenType) (k : string) : bool :=
  match m !! k with Some _ => true | None => false end.

(** [keywords[k]]: on a miss, a value-initialised entry is inserted. *)
Definition map_subscript (m : gmap string TokenType) (k : string)
  : gmap string TokenType * TokenType :=
  match m !! k with
  | Some v => (m, v)
  | None => (<[k := TokenType_default]> m, TokenType_default)
  end.

(** [s.find('.') != string::npos] *)
Fixpoint string_has (c : ascii) (s : string) : bool :=
  match s with
  | EmptyString => false
  | String d s' => if Ascii.eqb c d then true else string_has c s'
  end.

(** ** [initKeywords] and the constructor *)

Definition initKeywords (m : gmap string TokenType) : gmap string TokenType :=
  <["void" := Keyword]> (<["return" := Keyword]> (<["continue" := Keyword]>
  (<["break" := Keyword]> (<["default" := Keyword]> (<["case" := Keyword]>
  (<["switch" := Keyword]> (<["for" := Keyword]> (<["while" := Keyword]>
  (<["else" := Keyword]> (<["if" := Keyword]> (<["string" := Keyword]>
  (<["float" := Keyword]> (<["int" := Keyword]> m))))))))))))).

(** The table right after construction. *)
Definition keyword_table : gmap string TokenType := initKeywords ∅.

(** [Lexer(const string& input) : input(input), position(0) { initKeywords(); }] *)
Definition new_Lexer (s : string) : Lexer := mkLexer s 0 keyword_table.

(** The fourteen spellings, as listed in [initKeywords]. *)
Definition keyword_spellings : list string :=
  ["int"; "float"; "string"; "if"; "else"; "while"; "for"; "switch";
   "case"; "default"; "break"; "continue"; "return"; "void"].

(** ** Character predicates *)

Definition in_range (c lo hi : ascii) : bool :=
  (char_value lo <=? char_value c)%Z && (char_value c <=? char_value hi)%Z.

Definition isWhitespace (c : ascii) : bool :=
  char_eq c " "%char || char_eq c "009"%char || char_eq c "010"%char
  || char_eq c "013"%char.

Definition isAlpha (c : ascii) : bool :=
  in_range c "a"%char "z"%char || in_range c "A"%char "Z"%char
  || in_range c "0"%char "9"%char.

Definition isDigit (c : ascii) : bool := in_range c "0"%char "9"%char.

Definition isAlphaNumeric (c : ascii) : bool := isAlpha c || isDigit c.

(** ** Sub-scanners *)

(** [while (position < input.length() && p(input[position])) position++;]
    The loop runs at most [String.length input] times, the fuel given. *)
Fixpoint advance_while (p : ascii -> bool) (s : string) (fuel pos : nat) : nat :=
  match fuel with
  | O => pos
  | S f =>
      if Nat.ltb pos (String.length s) && p (char_at s pos)
      then advance_while p s f (S pos)
      else pos
  end.

(** [getNextWord] *)
Definition getNextWord (lx : Lexer) : Lexer * string :=
  let start := position lx in
  let pos := advance_while isAlphaNumeric (input lx)
               (String.length (input lx)) start in
  (set_position lx pos, substring start (pos - start)%nat (input lx)).

Definition is_number_char (c : ascii) : bool := isDigit c || char_eq c "."%char.

(** [getNextNumber]; its local [isFloat] is never read and is omitted. *)
Definition getNextNumber (lx : Lexer) : Lexer * string :=
  let start := position lx in
  let pos := advance_while is_number_char (input lx)
               (String.length (input lx)) start in
  (set_position lx pos, substring start (pos - start)%nat (input lx)).

(** ** [tokenize] *)

(** [c == '+' || c == '-' || c == '*' || c == '/' || c == '//' || c == '%'] *)
Definition is_operator_char (c : ascii) : bool :=
  char_eq c "+"%char || char_eq c "-"%char || char_eq c "*"%char
  || char_eq c "/"%char || char_eq_multi c "/"%char "/"%char
  || char_eq c "%"%char.

(** [c == '(' || c == ')' || c == ':' || c == ':3' || c == '[' || c == ']'] *)
Definition is_delimiter_char (c : ascii) : bool :=
  char_eq c "("%char || char_eq c ")"%char || char_eq c ":"%char
  || char_eq_multi c ":"%char "3"%char
  || char_eq c "["%char || char_eq c "]"%char.

(** [string(1, c)] *)
Definition string1 (c : ascii) : string := String c EmptyString.

(** Lines 165-167: word scanner and keyword classification. *)
Definition word_branch (lx : Lexer) (tokens : list Token) : Lexer * list Token :=
  let '(lx1, word) := getNextWord lx in
  let '(m, ty) :=
    if map_found (keywords lx1) word
    then map_subscript (keywords lx1) word
    else (keywords lx1, Identifier) in
  (set_keywords lx1 m, (tokens ++ [mkToken ty word])%list).

(** Lines 169-177, with the braces as written: the [push_back] sits inside
    [if (number.find('.') != npos)], whose [else] is [position++]. *)
Definition digit_branch (lx : Lexer) (tokens : list Token) : Lexer * list Token :=
  let '(lx1, number) := getNextNumber lx in
  let ty := Integer in
  if string_has "."%char number
  then let ty := Float in (lx1, (tokens ++ [mkToken ty number])%list)
  else (set_position lx1 (S (position lx1)), tokens).

(** The [if ... else if ...] chain of the loop body (lines 161-200). *)
Definition tokenize_step (lx : Lexer) (tokens : list Token) : Lexer * list Token :=
  let c := char_at (input lx) (position lx) in
  if isWhitespace c then (set_position lx (S (position lx)), tokens)
  else if isAlpha c then word_branch lx tokens
  else if isDigit c then digit_branch lx tokens
  else if is_operator_char c then
    (set_position lx (S (position lx)), (tokens ++ [mkToken Operator (string1 c)])%list)
  else if is_delimiter_char c then
    (set_position lx (S (position lx)), (tokens ++ [mkToken Delimiter (string1 c)])%list)
  else
    (set_position lx (S (position lx)), (tokens ++ [mkToken Unknown (string1 c)])%list).

(** How a statement list completes: normally, or through [return]. *)
Inductive completion :=
| Normal (lx : Lexer) (tokens : list Token)
| Return (lx : Lexer) (tokens : list Token).

(** The whole [while] body: the if-chain followed by [return tokens;]
    (line 201). *)
Definition loop_body (lx : Lexer) (tokens : list Token) : completion :=
  let '(lx', tokens') := tokenize_step lx tokens in Return lx' tokens'.

(** Outcome of a call: a returned vector, control reaching the closing
    brace of the non-void [tokenize] (undefined behaviour in C++), or the
    fuel running out (never happens with the fuel [tokenize] gives). *)
Inductive tokenize_result :=
| Returned (tokens : list Token) (lx : Lexer)
| FellOffEnd (lx : Lexer)
| OutOfFuel.

(** [while (position < input.length()) { ... }] *)
Fixpoint tokenize_loop (fuel : nat) (lx : Lexer) (tokens : list Token)
  : tokenize_result :=
  match fuel with
  | O => OutOfFuel
  | S f =>
      if Nat.ltb (position lx) (String.length (input lx)) then
        match loop_body lx tokens with
        | Normal lx' tokens' => tokenize_loop f lx' tokens'
        | Return lx' tokens' => Returned tokens' lx'
        end
      else FellOffEnd lx
  end.

(** [vector<Token> tokenize()]: starts from an empty [tokens]. *)
Definition tokenize (lx : Lexer) : tokenize_result :=
  tokenize_loop (S (String.length (input lx))) lx [].

(** ** Vocabulary of the claims *)

Definition is_letter (c : ascii) : bool :=
  in_range c "a"%char "z"%char || in_range c "A"%char "Z"%char.

Definition starts_with_letter (s : string) : bool :=
  match s with EmptyString => false | String c _ => is_letter c end.

Fixpoint strip_whitespace (s : string) : string :=
  match s with
  | EmptyString => EmptyString
  | String c s' =>
      if isWhitespace c then strip_whitespace s' else String c (strip_whitespace s')
  end.

Fixpoint concat_values (toks : list Token) : string :=
  match toks with
  | [] => EmptyString
  | t :: ts => value t ++ concat_values ts
  end.

Definition returned_tokens (r : tokenize_result) : option (list Token) :=
  match r with Returned toks _ => Some toks | _ => None end.

(** ** Display of tokens *)

(** [getTokenTypeName]; the [default] label is unreachable, every
    enumerator has its own case. *)
Definition getTokenTypeName (t : TokenType) : string :=
  match t with
  | Keyword => "keyword"
  | Identifier => "identifier"
  | Integer => "integer"
  | Float => "float"
  | String_ => "string"
  | Operator => "operator"
  | Delimiter => "delimiter"
  | Unknown => "unknown"
  end.

(** [endl] writes a newline (and flushes). *)
Definition endl : string := string1 "010"%char.

(** One iteration of the loop of [printTokens]:
    [cout << "Token: " << getTokenTypeName(token.type) << ", Value: "
          << token.value << endl]. *)
Definition print_token (t : Token) : string :=
  "Token: " ++ getTokenTypeName (type t) ++ ", Value: " ++ value t ++ endl.

(** [printTokens], as the text it writes to standard output. *)
Fixpoint printTokens (tokens : list Token) : string :=
  match tokens with
  | [] => EmptyString
  | t :: ts => print_token t ++ printTokens ts
  end.

(** Number of newline characters in a text. *)
Fixpoint count_newlines (s : string) : nat :=
  match s with
  | EmptyString => 0
  | String c s' =>
      (if Ascii.eqb c "010"%char then 1 else 0) + count_newlines s'
  end.

(** The characters the operator and delimiter tests can match. *)
Definition operator_chars : list ascii := ["+"; "-"; "*"; "/"; "%"]%char.
Definition delimiter_chars : list ascii := ["("; ")"; ":"; "["; "]"]%char.

Definition char_in (c : ascii) (l : list ascii) : bool := existsb (Ascii.eqb c) l.

(** The kind the single-character branches of [tokenize] give [c]. *)
Definition single_char_kind (c : ascii) : TokenType :=
  if char_in c operator_chars then Operator
  else if char_in c delimiter_chars then Delimiter
  else Unknown.

(** Line 166 read against the table: [Keyword] for a spelling of the
    table, [Identifier] otherwise. *)
Definition classify_word (w : string) : TokenType :=
  if existsb (String.eqb w) keyword_spellings then Keyword else Identifier.

(** ** Helper lemmas *)

Lemma char_value_bounds (c : ascii) :
  (-128 <= char_value c <= 127)%Z.
Proof.
  unfold char_value. pose proof (nat_ascii_bounded c).
  destruct (Z.ltb_spec (Z.of_nat (nat_of_ascii c)) 128); lia.
Qed.

Lemma char_eq_multi_false (c a b : ascii) :
  0 < nat_of_ascii a -> char_eq_multi c a b = false.
Proof.
  intros Ha. unfold char_eq_multi, multichar_value.
  pose proof (char_value_bounds c). apply Z.eqb_neq. lia.
Qed.

Lemma isDigit_isAlpha (c : ascii) : isDigit c = true -> isAlpha c = true.
Proof. unfold isAlpha, isDigit. intros ->. apply orb_true_r. Qed.

Lemma is_letter_isAlpha (c : ascii) : is_letter c = true -> isAlpha c = true.
Proof. unfold isAlpha, is_letter. intros ->. reflexivity. Qed.

Lemma advance_while_ge (p : ascii -> bool) (s : string) (fuel pos : nat) :
  pos <= advance_while p s fuel pos.
Proof.
  revert pos. induction fuel as [|f IH]; intros pos; simpl; [lia|].
  destruct (Nat.ltb pos (String.length s) && p (char_at s pos)); [|lia].
  specialize (IH (S pos)). lia.
Qed.

Lemma advance_while_first (p : ascii -> bool) (s : string) (fuel pos : nat) :
  pos < String.length s -> p (char_at s pos) = true ->
  S pos <= advance_while p s (S fuel) pos.
Proof.
  intros Hlt Hp. simpl.
  rewrite (proj2 (Nat.ltb_lt _ _) Hlt), Hp. apply advance_while_ge.
Qed.

Lemma substring_nonempty (s : string) (n m : nat) :
  n < String.length s -> substring n (S m) s <> EmptyString.
Proof.
  revert n. induction s as [|c s IH]; intros n Hn; simpl in Hn; [lia|].
  destruct n as [|n]; simpl; [discriminate|].
  apply IH. lia.
Qed.

Lemma keyword_table_lookup (w : string) :
  keyword_table !! w =
    if existsb (String.eqb w) keyword_spellings then Some Keyword else None.
Proof.
  unfold keyword_table, initKeywords.
  rewrite !lookup_insert, lookup_empty.
  repeat case_decide; subst; try reflexivity.
  simpl. repeat rewrite (proj2 (String.eqb_neq _ _)) by congruence.
  reflexivity.
Qed.

(** Classification of a word against the table, as line 166 does it. *)
Lemma keyword_table_classify (w : string) :
  (if map_found keyword_table w then map_subscript keyword_table w
   else (keyword_table, Identifier)) = (keyword_table, classify_word w).
Proof.
  unfold map_found, map_subscript, classify_word.
  rewrite keyword_table_lookup.
  destruct (existsb (String.eqb w) keyword_spellings); reflexivity.
Qed.

(** [keywords[word]] is only evaluated after [find] succeeded, so the map
    component never changes. *)
Lemma guarded_subscript_map (m : gmap string TokenType) (w : string) :
  fst (if map_found m w then map_subscript m w else (m, Identifier)) = m.
Proof.
  unfold map_found, map_subscript. destruct (m !! w); reflexivity.
Qed.

Lemma tokenize_step_keywords (lx : Lexer) (tokens : list Token) :
  keywords (fst (tokenize_step lx tokens)) = keywords lx.
Proof.
  unfold tokenize_step.
  destruct (isWhitespace _); [reflexivity|].
  destruct (isAlpha _).
  - unfold word_branch, getNextWord; simpl.
    pose proof (guarded_subscript_map (keywords lx)
      (substring (position lx)
         (advance_while isAlphaNumeric (input lx) (String.length (input lx))
            (position lx) - position lx) (input lx))) as Hm.
    destruct (if map_found _ _ then _ else _) as [m ty]. exact Hm.
  - destruct (isDigit _).
    + unfold digit_branch, getNextNumber; simpl.
      destruct (string_has _ _); reflexivity.
    + destruct (is_operator_char _); [reflexivity|].
      destruct (is_delimiter_char _); reflexivity.
Qed.

(** The shape of one pass through the if-chain: whitespace adds nothing,
    the word scanner runs on an [isAlpha] character, and every other
    character adds one single-character token (the digit branch is never
    reached, since [isDigit] implies [isAlpha]). *)
Lemma tokenize_step_cases (lx : Lexer) (tokens : list Token) :
  let c := char_at (input lx) (position lx) in
  snd (tokenize_step lx tokens) = tokens
  \/ (isAlpha c = true /\ tokenize_step lx tokens = word_branch lx tokens)
  \/ (isAlpha c = false /\ exists k,
        snd (tokenize_step lx tokens) = (tokens ++ [mkToken k (string1 c)])%list).
Proof.
  cbv zeta. unfold tokenize_step.
  destruct (isWhitespace _); [left; reflexivity|].
  destruct (isAlpha _) eqn:Ha; [right; left; split; reflexivity|].
  right; right; split; [reflexivity|].
  destruct (isDigit _) eqn:Hd.
  { apply isDigit_isAlpha in Hd. congruence. }
  destruct (is_operator_char _); [eexists; reflexivity|].
  destruct (is_delimiter_char _); eexists; reflexivity.
Qed.

(** Anything preserved by one pass of the loop body holds of what
    [tokenize_loop] returns. *)
Lemma tokenize_loop_invariant (P : Lexer -> list Token -> Prop) :
  (forall lx tokens, position lx < String.length (input lx) -> P lx tokens ->
     P (fst (tokenize_step lx tokens)) (snd (tokenize_step lx tokens))) ->
  forall fuel lx tokens tokens' lx',
  P lx tokens -> tokenize_loop fuel lx tokens = Returned tokens' lx' ->
  P lx' tokens'.
Proof.
  intros Hstep fuel. induction fuel as [|f IH]; intros lx tokens tokens' lx' HP H;
    simpl in H; [discriminate|].
  destruct (Nat.ltb_spec (position lx) (String.length (input lx))) as [Hlt|];
    [|discriminate].
  specialize (Hstep lx tokens Hlt HP).
  unfold loop_body in H. destruct (tokenize_step lx tokens) as [lx1 t1].
  injection H as <- <-. exact Hstep.
Qed.

(** The word scanner, entered on an [isAlpha] character before the end of
    the input, returns a non-empty word and moves the cursor past it. *)
Lemma getNextWord_progress (lx : Lexer) :
  position lx < String.length (input lx) ->
  isAlpha (char_at (input lx) (position lx)) = true ->
  position lx < position (fst (getNextWord lx))
  /\ snd (getNextWord lx) <> EmptyString.
Proof.
  intros Hlt Ha. unfold getNextWord; simpl.
  destruct (String.length (input lx)) as [|k] eqn:Hlen; [lia|].
  assert (Hp : isAlphaNumeric (char_at (input lx) (position lx)) = true)
    by (unfold isAlphaNumeric; rewrite Ha; reflexivity).
  pose proof (advance_while_first isAlphaNumeric (input lx) k (position lx)
                ltac:(lia) Hp) as Hge.
  split; [lia|].
  replace (advance_while isAlphaNumeric (input lx) (S k) (position lx)
           - position lx)
    with (S (advance_while isAlphaNumeric (input lx) (S k) (position lx)
             - S (position lx))) by lia.
  apply substring_nonempty. lia.
Qed.

(** Every pass of the loop body, entered with the cursor before the end of
    the input, moves the cursor forward. *)
Lemma tokenize_step_advances (lx : Lexer) (tokens : list Token) :
  position lx < String.length (input lx) ->
  position lx < position (fst (tokenize_step lx tokens)).
Proof.
  intros Hlt. unfold tokenize_step.
  destruct (isWhitespace _); [simpl; lia|].
  destruct (isAlpha _) eqn:Ha.
  - unfold word_branch.
    destruct (getNextWord_progress lx Hlt Ha) as [Hp _].
    destruct (getNextWord lx) as [lx1 word]; simpl in Hp.
    destruct (if map_found _ _ then _ else _); simpl. exact Hp.
  - destruct (isDigit _) eqn:Hd.
    { apply isDigit_isAlpha in Hd. congruence. }
    destruct (is_operator_char _); [simpl; lia|].
    destruct (is_delimiter_char _); simpl; lia.
Qed.

(** ** Claims *)

(** C5: every word token whose text is one of the fourteen spellings of
    the keyword table has kind [Keyword], and every other token whose text
    starts with a letter has kind [Identifier]. *)
Theorem tokenize_word_classification (s : string) (toks : list Token) (lx : Lexer) :
  tokenize (new_Lexer s) = Returned toks lx ->
  forall t, In t toks -> starts_with_letter (value t) = true ->
  type t = classify_word (value t).
Proof.
  intros H.
  set (Q := fun t : Token =>
        starts_with_letter (value t) = true -> type t = classify_word (value t)).
  assert (Hinv : keywords lx = keyword_table /\ Forall Q toks).
  { revert H. unfold tokenize.
    apply (tokenize_loop_invariant
             (fun lx toks => keywords lx = keyword_table /\ Forall Q toks)).
    - intros lx0 tokens Hlt [Hk HQ].
      split; [rewrite tokenize_step_keywords; exact Hk|].
      destruct (tokenize_step_cases lx0 tokens)
        as [Hs | [[Ha Hs] | [Ha [k Hs]]]].
      + rewrite Hs. exact HQ.
      + rewrite Hs. unfold word_branch, getNextWord. simpl.
        rewrite Hk, keyword_table_classify. simpl.
        apply Forall_app. split; [exact HQ|].
        constructor; [|constructor]. intros _. reflexivity.
      + rewrite Hs. apply Forall_app. split; [exact HQ|].
        constructor; [|constructor]. unfold Q; simpl.
        destruct (is_letter _) eqn:Hl; [|discriminate].
        apply is_letter_isAlpha in Hl. congruence.
    - split; [reflexivity | constructor]. }
  destruct Hinv as [_ HQ]. rewrite List.Forall_forall in HQ.
  intros t Hin. exact (HQ t Hin).
Qed.

Lemma tokenize_word_classification_witness :
  type (mkToken Keyword "int") = classify_word "int".
Proof.
  apply (tokenize_word_classification "int" [mkToken Keyword "int"]
           (mkLexer "int" 3 keyword_table)).
  - vm_compute. reflexivity.
  - left. reflexivity.
  - reflexivity.
Defined.

(** C9: [tokenize] leaves the keyword table as construction built it: in
    every outcome of the call, the lexer's [keywords] map is exactly the
    table of fourteen entries made by [initKeywords]. *)
Theorem tokenize_keywords_unchanged (s : string) :
  map_size keyword_table = 14 /\
  match tokenize (new_Lexer s) with
  | Returned _ lx | FellOffEnd lx => keywords lx = keyword_table
  | OutOfFuel => False
  end.
Proof.
  split; [vm_compute; reflexivity|].
  unfold tokenize; simpl.
  destruct (Nat.ltb 0 (String.length s)); [|reflexivity].
  unfold loop_body.
  pose proof (tokenize_step_keywords (new_Lexer s) []) as Hk.
  destruct (tokenize_step (new_Lexer s) []) as [lx' toks']. exact Hk.
Qed.

(** C10: every token returned by [tokenize] has a non-empty text. *)
Theorem tokenize_tokens_nonempty (lx0 : Lexer) (toks : list Token) (lx : Lexer) :
  tokenize lx0 = Returned toks lx ->
  Forall (fun t => value t <> EmptyString) toks.
Proof.
  unfold tokenize.
  apply (tokenize_loop_invariant
           (fun _ toks => Forall (fun t => value t <> EmptyString) toks)).
  - intros lx1 tokens Hlt HF.
    destruct (tokenize_step_cases lx1 tokens)
      as [Hs | [[Ha Hs] | [Ha [k Hs]]]].
    + rewrite Hs. exact HF.
    + rewrite Hs. unfold word_branch.
      destruct (getNextWord_progress lx1 Hlt Ha) as [_ Hw].
      destruct (getNextWord lx1) as [lx2 word]; simpl in Hw.
      destruct (if map_found _ _ then _ else _) as [m ty]; simpl.
      apply Forall_app. split; [exact HF|]. constructor; [exact Hw | constructor].
    + rewrite Hs. apply Forall_app. split; [exact HF|].
      constructor; [discriminate | constructor].
  - constructor.
Qed.

Lemma tokenize_tokens_nonempty_witness :
  Forall (fun t => value t <> EmptyString) [mkToken Keyword "int"].
Proof.
  apply (tokenize_tokens_nonempty (new_Lexer "int") [mkToken Keyword "int"]
           (mkLexer "int" 3 keyword_table)).
  vm_compute. reflexivity.
Defined.

(** The if-chain on a character that is neither whitespace, nor accepted by
    [isAlpha], nor an operator or a delimiter character: one [Unknown]
    token holding that character, cursor moved by one. *)
Lemma tokenize_step_unknown (lx : Lexer) (tokens : list Token) :
  let c := char_at (input lx) (position lx) in
  isWhitespace c = false -> isAlpha c = false ->
  is_operator_char c = false -> is_delimiter_char c = false ->
  tokenize_step lx tokens
  = (set_position lx (S (position lx)), (tokens ++ [mkToken Unknown (string1 c)])%list).
Proof.
  cbv zeta. intros Hw Ha Ho Hd. unfold tokenize_step.
  rewrite Hw, Ha.
  destruct (isDigit _) eqn:Hdig.
  { apply isDigit_isAlpha in Hdig. congruence. }
  rewrite Ho, Hd. reflexivity.
Qed.

(** C1 (code_bug): [tokenize] does not return the complete token sequence.
    The [return tokens;] at the end of the loop body ends the call after
    the first pass, so on ["a b"] only [Identifier "a"] comes back and the
    word ["b"] is never scanned (each pass does advance the cursor, see
    [tokenize_step_advances]). *)
Theorem tokenize_stops_after_first_pass :
  tokenize (new_Lexer "a b")
  = Returned [mkToken Identifier "a"] (mkLexer "a b" 1 keyword_table).
Proof. vm_compute. reflexivity. Qed.

(** C2 (code_bug): the numeric run ["42"] is not emitted as an [Integer]
    token: [isAlpha] accepts digits, so the word scanner takes it and emits
    [Identifier "42"]; and the number branch, were it reached, emits no
    token at all for a run without ['.'], because its [push_back] sits
    inside the [if] that tests for the dot. *)
Theorem number_run_not_integer :
  returned_tokens (tokenize (new_Lexer "42")) = Some [mkToken Identifier "42"]
  /\ snd (digit_branch (new_Lexer "42") []) = [].
Proof. split; vm_compute; reflexivity. Qed.

(** C3 (code_bug): on ["3.14 + x1"] [tokenize] returns the single token
    [Identifier "3"]: the digit is routed to the word scanner, which stops
    at ['.'], and the call returns after the first pass. *)
Theorem tokenize_scenario3 :
  returned_tokens (tokenize (new_Lexer "3.14 + x1"))
  = Some [mkToken Identifier "3"].
Proof. vm_compute. reflexivity. Qed.

(** C4 (code_bug): on ["int main() { return 0; }"] [tokenize] returns the
    single token [Keyword "int"], because the call returns after the first
    pass of the loop. *)
Theorem tokenize_scenario1 :
  returned_tokens (tokenize (new_Lexer "int main() { return 0; }"))
  = Some [mkToken Keyword "int"].
Proof. vm_compute. reflexivity. Qed.

(** C6 (code_bug): an unrecognised character alone is handled as the claim
    says (["@"] gives [Unknown "@"]; see also [tokenize_step_unknown]), but
    on the empty input the loop is never entered and control reaches the
    end of the non-void [tokenize] without a [return]. *)
Theorem tokenize_unknown_and_empty :
  returned_tokens (tokenize (new_Lexer "@")) = Some [mkToken Unknown "@"]
  /\ tokenize (new_Lexer "") = FellOffEnd (new_Lexer "").
Proof. split; vm_compute; reflexivity. Qed.

(** C7 (code_bug): on ["a b"] the returned token texts, with the whitespace
    put back, do not give back the input: the non-whitespace characters
    ["ab"] are not the concatenated texts ["a"]. *)
Theorem tokenize_not_reconstructing :
  match tokenize (new_Lexer "a b") with
  | Returned toks _ => concat_values toks <> strip_whitespace "a b"
  | _ => False
  end.
Proof. vm_compute. discriminate. Qed.

(** C8 (code_bug): a non-empty all-whitespace input yields the empty
    sequence, but the empty input yields no sequence at all: control
    reaches the end of [tokenize] without a [return]. *)
Theorem tokenize_empty_input :
  tokenize (new_Lexer "") = FellOffEnd (new_Lexer "")
  /\ returned_tokens (tokenize (new_Lexer " ")) = Some [].
Proof. split; vm_compute; reflexivity. Qed.

(** ** Further properties of the code *)

Lemma advance_while_spec (p : ascii -> bool) (s : string) (fuel pos : nat) :
  pos <= String.length s -> String.length s - pos <= fuel ->
  let q := advance_while p s fuel pos in
  pos <= q <= String.length s
  /\ (forall i, pos <= i < q -> p (char_at s i) = true)
  /\ (q < String.length s -> p (char_at s q) = false).
Proof.
  revert pos. induction fuel as [|f IH]; intros pos Hle Hfuel; cbv zeta; simpl.
  - split; [lia|]. split; [intros; lia | intros; lia].
  - destruct (Nat.ltb_spec pos (String.length s)) as [Hlt|Hge]; simpl.
    + destruct (p (char_at s pos)) eqn:Hp.
      * destruct (IH (S pos) ltac:(lia) ltac:(lia)) as [Hb [Hall Hend]].
        split; [lia|]. split; [|exact Hend].
        intros i Hi. destruct (Nat.eq_dec i pos) as [->|]; [exact Hp|].
        apply Hall. lia.
      * split; [lia|]. split; [intros; lia | intros; exact Hp].
    + split; [lia|]. split; [intros; lia | intros; lia].
Qed.

Lemma substring_length (s : string) (n m : nat) :
  n + m <= String.length s -> String.length (substring n m s) = m.
Proof.
  revert n m. induction s as [|c s IH]; intros n m H; simpl in H.
  - destruct n, m; simpl; lia.
  - destruct n as [|n].
    + destruct m as [|m]; simpl; [reflexivity|].
      rewrite IH by lia. reflexivity.
    + simpl. apply IH. lia.
Qed.

Lemma char_at_substring (s : string) (n m i : nat) :
  i < m -> char_at (substring n m s) i = char_at s (n + i).
Proof.
  intros Hi. unfold char_at. rewrite substring_correct1 by exact Hi.
  rewrite Nat.add_comm. reflexivity.
Qed.

(** What a sub-scanner built on [advance_while] returns: the maximal run of
    characters satisfying [p] from the cursor, with the cursor moved past it. *)
Lemma scan_run_spec (p : ascii -> bool) (s : string) (start : nat) :
  start <= String.length s ->
  let pos := advance_while p s (String.length s) start in
  let w := substring start (pos - start) s in
  pos = start + String.length w
  /\ w = substring start (String.length w) s
  /\ (forall i, i < String.length w -> p (char_at w i) = true)
  /\ (pos < String.length s -> p (char_at s pos) = false).
Proof.
  intros Hle. cbv zeta.
  destruct (advance_while_spec p s (String.length s) start Hle ltac:(lia))
    as [Hb [Hall Hend]].
  rewrite substring_length by lia.
  split; [lia|]. split; [reflexivity|]. split; [|exact Hend].
  intros i Hi. rewrite char_at_substring by exact Hi. apply Hall. lia.
Qed.

Lemma char_value_inj (c d : ascii) : char_value c = char_value d -> c = d.
Proof.
  unfold char_value. intros H.
  pose proof (nat_ascii_bounded c). pose proof (nat_ascii_bounded d).
  rewrite <- (ascii_nat_embedding c), <- (ascii_nat_embedding d). f_equal.
  destruct (Z.ltb_spec (Z.of_nat (nat_of_ascii c)) 128);
  destruct (Z.ltb_spec (Z.of_nat (nat_of_ascii d)) 128); lia.
Qed.

Lemma char_eq_true (c d : ascii) : char_eq c d = (c =? d)%char.
Proof.
  unfold char_eq. destruct (Ascii.eqb_spec c d) as [->|Hne].
  - apply Z.eqb_refl.
  - apply Z.eqb_neq. intros H. apply Hne, char_value_inj, H.
Qed.

(** [getNextWord], called with the cursor at most at the end of the input,
    returns the maximal run of [isAlphaNumeric] characters starting at the
    cursor and moves the cursor just past it; input and table are kept. *)
Theorem getNextWord_maximal_run (lx : Lexer) :
  position lx <= String.length (input lx) ->
  let '(lx', w) := getNextWord lx in
  input lx' = input lx /\ keywords lx' = keywords lx
  /\ position lx' = position lx + String.length w
  /\ w = substring (position lx) (String.length w) (input lx)
  /\ (forall i, i < String.length w -> isAlphaNumeric (char_at w i) = true)
  /\ (position lx' < String.length (input lx) ->
      isAlphaNumeric (char_at (input lx) (position lx')) = false).
Proof.
  intros Hle. unfold getNextWord. simpl.
  destruct (scan_run_spec isAlphaNumeric (input lx) (position lx) Hle)
    as [Hpos [Hw [Hall Hend]]].
  split; [reflexivity|]. split; [reflexivity|].
  split; [exact Hpos|]. split; [exact Hw|]. split; [exact Hall | exact Hend].
Qed.

Lemma getNextWord_maximal_run_witness :
  position (new_Lexer "ab1+c") <= String.length (input (new_Lexer "ab1+c")) /\
  let '(lx', w) := getNextWord (new_Lexer "ab1+c") in
  input lx' = input (new_Lexer "ab1+c")
  /\ keywords lx' = keywords (new_Lexer "ab1+c")
  /\ position lx' = position (new_Lexer "ab1+c") + String.length w
  /\ w = substring (position (new_Lexer "ab1+c")) (String.length w)
                   (input (new_Lexer "ab1+c"))
  /\ (forall i, i < String.length w -> isAlphaNumeric (char_at w i) = true)
  /\ (position lx' < String.length (input (new_Lexer "ab1+c")) ->
      isAlphaNumeric (char_at (input (new_Lexer "ab1+c")) (position lx')) = false).
Proof.
  split; [simpl; lia|]. apply getNextWord_maximal_run. simpl; lia.
Defined.

(** [getNextNumber], called with the cursor at most at the end of the
    input, returns the maximal run of digits and dots starting at the
    cursor and moves the cursor just past it; input and table are kept. *)
Theorem getNextNumber_maximal_run (lx : Lexer) :
  position lx <= String.length (input lx) ->
  let '(lx', w) := getNextNumber lx in
  input lx' = input lx /\ keywords lx' = keywords lx
  /\ position lx' = position lx + String.length w
  /\ w = substring (position lx) (String.length w) (input lx)
  /\ (forall i, i < String.length w -> is_number_char (char_at w i) = true)
  /\ (position lx' < String.length (input lx) ->
      is_number_char (char_at (input lx) (position lx')) = false).
Proof.
  intros Hle. unfold getNextNumber. simpl.
  destruct (scan_run_spec is_number_char (input lx) (position lx) Hle)
    as [Hpos [Hw [Hall Hend]]].
  split; [reflexivity|]. split; [reflexivity|].
  split; [exact Hpos|]. split; [exact Hw|]. split; [exact Hall | exact Hend].
Qed.

Lemma getNextNumber_maximal_run_witness :
  position (new_Lexer "3.1.4x") <= String.length (input (new_Lexer "3.1.4x")) /\
  let '(lx', w) := getNextNumber (new_Lexer "3.1.4x") in
  input lx' = input (new_Lexer "3.1.4x")
  /\ keywords lx' = keywords (new_Lexer "3.1.4x")
  /\ position lx' = position (new_Lexer "3.1.4x") + String.length w
  /\ w = substring (position (new_Lexer "3.1.4x")) (String.length w)
                   (input (new_Lexer "3.1.4x"))
  /\ (forall i, i < String.length w -> is_number_char (char_at w i) = true)
  /\ (position lx' < String.length (input (new_Lexer "3.1.4x")) ->
      is_number_char (char_at (input (new_Lexer "3.1.4x")) (position lx')) = false).
Proof.
  split; [simpl; lia|]. apply getNextNumber_maximal_run. simpl; lia.
Defined.

(** [isAlphaNumeric] accepts exactly the characters [isAlpha] accepts: its
    [isDigit] disjunct adds nothing. *)
Theorem isAlphaNumeric_is_isAlpha (c : ascii) : isAlphaNumeric c = isAlpha c.
Proof.
  unfold isAlphaNumeric. destruct (isAlpha c) eqn:Ha; [reflexivity|].
  destruct (isDigit c) eqn:Hd; [|reflexivity].
  apply isDigit_isAlpha in Hd. congruence.
Qed.

Lemma operator_char_in (c : ascii) :
  is_operator_char c = char_in c operator_chars.
Proof.
  unfold is_operator_char, char_in, operator_chars.
  rewrite !char_eq_true, char_eq_multi_false by (apply Nat.ltb_lt; reflexivity). simpl.
  destruct (c =? "+")%char, (c =? "-")%char, (c =? "*")%char,
           (c =? "/")%char, (c =? "%")%char; reflexivity.
Qed.

(** The operator test of [tokenize] matches exactly [+ - * / %]: its
    two-character literal ['//'] never equals a [char]. *)
Theorem is_operator_char_exact (c : ascii) :
  is_operator_char c = char_in c operator_chars.
Proof. exact (operator_char_in c). Qed.

Lemma delimiter_char_in (c : ascii) :
  is_delimiter_char c = char_in c delimiter_chars.
Proof.
  unfold is_delimiter_char, char_in, delimiter_chars.
  rewrite !char_eq_true, char_eq_multi_false by (apply Nat.ltb_lt; reflexivity). simpl.
  destruct (c =? "(")%char, (c =? ")")%char, (c =? ":")%char,
           (c =? "[")%char, (c =? "]")%char; reflexivity.
Qed.

(** The delimiter test of [tokenize] matches exactly [( ) : [ ]]: its
    two-character literal [':3'] never equals a [char]. *)
Theorem is_delimiter_char_exact (c : ascii) :
  is_delimiter_char c = char_in c delimiter_chars.
Proof. exact (delimiter_char_in c). Qed.

(** After construction the keyword table maps the fourteen spellings of
    [initKeywords] to [Keyword] and has no other entry. *)
Theorem keyword_table_entries (w : string) :
  (keyword_table !! w = Some Keyword <-> In w keyword_spellings)
  /\ (~ In w keyword_spellings -> keyword_table !! w = None).
Proof.
  rewrite keyword_table_lookup.
  assert (Hex : existsb (String.eqb w) keyword_spellings = true
                <-> In w keyword_spellings).
  { rewrite existsb_exists. split.
    - intros [x [Hin Heq]]. apply String.eqb_eq in Heq. subst. exact Hin.
    - intros Hin. exists w. split; [exact Hin | apply String.eqb_refl]. }
  destruct (existsb (String.eqb w) keyword_spellings).
  - split; [split; [intros _; apply Hex; reflexivity | reflexivity]|].
    intros Hn. exfalso. apply Hn, Hex. reflexivity.
  - split; [split; [discriminate | intros Hin; apply Hex in Hin; discriminate]|].
    intros _. reflexivity.
Qed.

Lemma tokenize_step_input (lx : Lexer) (tokens : list Token) :
  input (fst (tokenize_step lx tokens)) = input lx.
Proof.
  unfold tokenize_step.
  destruct (isWhitespace _); [reflexivity|].
  destruct (isAlpha _).
  - unfold word_branch, getNextWord; simpl.
    destruct (if map_found _ _ then _ else _). reflexivity.
  - destruct (isDigit _).
    + unfold digit_branch, getNextNumber; simpl.
      destruct (string_has _ _); reflexivity.
    + destruct (is_operator_char _); [reflexivity|].
      destruct (is_delimiter_char _); reflexivity.
Qed.

Lemma tokenize_step_bound (lx : Lexer) (tokens : list Token) :
  position lx < String.length (input lx) ->
  position (fst (tokenize_step lx tokens)) <= String.length (input lx).
Proof.
  intros Hlt. unfold tokenize_step.
  destruct (isWhitespace _); [simpl; lia|].
  destruct (isAlpha _) eqn:Ha.
  - unfold word_branch, getNextWord; simpl.
    destruct (advance_while_spec isAlphaNumeric (input lx)
                (String.length (input lx)) (position lx) ltac:(lia) ltac:(lia))
      as [Hb _].
    destruct (if map_found _ _ then _ else _); simpl. lia.
  - destruct (isDigit _) eqn:Hd.
    { apply isDigit_isAlpha in Hd. congruence. }
    destruct (is_operator_char _); [simpl; lia|].
    destruct (is_delimiter_char _); simpl; lia.
Qed.



(** With the cursor before the end of the input, a call of [tokenize]
    returns after one pass with at most one token, keeps the input and the
    keyword table, and leaves the cursor strictly further on but not past
    the end; so each further call on the same lexer resumes the scan. *)
Theorem tokenize_single_pass (lx : Lexer) :
  position lx < String.length (input lx) ->
  exists toks lx', tokenize lx = Returned toks lx'
  /\ length toks <= 1
  /\ input lx' = input lx /\ keywords lx' = keywords lx
  /\ position lx < position lx' <= String.length (input lx).
Proof.
  intros Hlt. unfold tokenize; simpl.
  rewrite (proj2 (Nat.ltb_lt _ _) Hlt). unfold loop_body.
  pose proof (tokenize_step_keywords lx []) as Hk.
  pose proof (tokenize_step_input lx []) as Hi.
  pose proof (tokenize_step_advances lx [] Hlt) as Ha.
  pose proof (tokenize_step_bound lx [] Hlt) as Hb.
  assert (Hl : length (snd (tokenize_step lx [])) <= 1).
  { destruct (tokenize_step_cases lx []) as [Hs | [[_ Hs] | [_ [k Hs]]]].
    - rewrite Hs. simpl. lia.
    - rewrite Hs. unfold word_branch.
      destruct (getNextWord lx) as [lx1 w].
      destruct (if map_found _ _ then _ else _). simpl. lia.
    - rewrite Hs. simpl. lia. }
  destruct (tokenize_step lx []) as [lx' toks']. simpl in *.
  exists toks', lx'. repeat split; auto.
Qed.

Lemma tokenize_single_pass_witness :
  position (new_Lexer "x y") < String.length (input (new_Lexer "x y")) /\
  exists toks lx', tokenize (new_Lexer "x y") = Returned toks lx'
  /\ length toks <= 1
  /\ input lx' = input (new_Lexer "x y") /\ keywords lx' = keywords (new_Lexer "x y")
  /\ position (new_Lexer "x y") < position lx' <= String.length (input (new_Lexer "x y")).
Proof. split; [simpl; lia | apply tokenize_single_pass; simpl; lia]. Defined.



Lemma isAlpha_not_whitespace (c : ascii) :
  isAlpha c = true -> isWhitespace c = false.
Proof.
  intros Ha. unfold isWhitespace. rewrite !char_eq_true.
  destruct (Ascii.eqb_spec c " "%char) as [->|_]; [discriminate Ha|].
  destruct (Ascii.eqb_spec c "009"%char) as [->|_]; [discriminate Ha|].
  destruct (Ascii.eqb_spec c "010"%char) as [->|_]; [discriminate Ha|].
  destruct (Ascii.eqb_spec c "013"%char) as [->|_]; [discriminate Ha|].
  reflexivity.
Qed.

(** The single-character branches of the if-chain, with the kind each one
    gives. *)
Lemma tokenize_step_single (lx : Lexer) (tokens : list Token) :
  let c := char_at (input lx) (position lx) in
  isWhitespace c = false -> isAlpha c = false ->
  tokenize_step lx tokens
  = (set_position lx (S (position lx)),
     (tokens ++ [mkToken (single_char_kind c) (string1 c)])%list).
Proof.
  cbv zeta. intros Hw Ha. unfold tokenize_step, single_char_kind.
  rewrite Hw, Ha, <- operator_char_in, <- delimiter_char_in.
  destruct (isDigit _) eqn:Hd.
  { apply isDigit_isAlpha in Hd. congruence. }
  destruct (is_operator_char _); [reflexivity|].
  destruct (is_delimiter_char _); reflexivity.
Qed.

(** The word branch of the if-chain, read against the keyword table. *)
Lemma tokenize_step_word (lx : Lexer) (tokens : list Token) :
  isAlpha (char_at (input lx) (position lx)) = true ->
  keywords lx = keyword_table ->
  tokenize_step lx tokens
  = (fst (getNextWord lx),
     (tokens ++ [mkToken (classify_word (snd (getNextWord lx)))
                          (snd (getNextWord lx))])%list).
Proof.
  intros Ha Hk. unfold tokenize_step.
  rewrite (isAlpha_not_whitespace _ Ha), Ha.
  unfold word_branch, getNextWord. simpl.
  rewrite Hk, keyword_table_classify. simpl.
  destruct lx as [i p m]; simpl in Hk; subst m. reflexivity.
Qed.

(** A call of [tokenize] on a character that is neither whitespace nor
    accepted by [isAlpha] returns one token of that single character, of
    kind [Operator] for [+ - * / %], [Delimiter] for [( ) : [ ]] and
    [Unknown] otherwise, and moves the cursor by one. *)
Theorem tokenize_single_char (lx : Lexer) :
  let c := char_at (input lx) (position lx) in
  position lx < String.length (input lx) ->
  isWhitespace c = false -> isAlpha c = false ->
  tokenize lx = Returned [mkToken (single_char_kind c) (string1 c)]
                         (set_position lx (S (position lx))).
Proof.
  cbv zeta. intros Hlt Hw Ha. unfold tokenize; simpl.
  rewrite (proj2 (Nat.ltb_lt _ _) Hlt). unfold loop_body.
  rewrite (tokenize_step_single lx [] Hw Ha). reflexivity.
Qed.

Lemma tokenize_single_char_witness :
  tokenize (new_Lexer "%x")
  = Returned [mkToken (single_char_kind "%"%char) (string1 "%"%char)]
             (set_position (new_Lexer "%x") 1).
Proof. apply (tokenize_single_char (new_Lexer "%x")); [simpl; lia | reflexivity | reflexivity]. Defined.

(** A call of [tokenize], on a freshly built lexer's table, with an
    [isAlpha] character under the cursor returns the one word
    [getNextWord] scans there, as [Keyword] if it is one of the table's
    spellings and [Identifier] otherwise, with the cursor past the word. *)
Theorem tokenize_word (lx : Lexer) :
  position lx < String.length (input lx) ->
  isAlpha (char_at (input lx) (position lx)) = true ->
  keywords lx = keyword_table ->
  tokenize lx = Returned [mkToken (classify_word (snd (getNextWord lx)))
                                  (snd (getNextWord lx))]
                         (fst (getNextWord lx)).
Proof.
  intros Hlt Ha Hk. unfold tokenize; simpl.
  rewrite (proj2 (Nat.ltb_lt _ _) Hlt). unfold loop_body.
  rewrite (tokenize_step_word lx [] Ha Hk). reflexivity.
Qed.

Lemma tokenize_word_witness :
  tokenize (new_Lexer "while(x)")
  = Returned [mkToken (classify_word (snd (getNextWord (new_Lexer "while(x)"))))
                      (snd (getNextWord (new_Lexer "while(x)")))]
             (fst (getNextWord (new_Lexer "while(x)"))).
Proof.
  apply tokenize_word; [simpl; lia | reflexivity | reflexivity].
Defined.

Lemma getNextWord_head (lx : Lexer) :
  position lx < String.length (input lx) ->
  isAlpha (char_at (input lx) (position lx)) = true ->
  exists rest, snd (getNextWord lx)
               = String (char_at (input lx) (position lx)) rest.
Proof.
  intros Hlt Ha.
  destruct (getNextWord_progress lx Hlt Ha) as [Hp Hne].
  assert (H0 : char_at (snd (getNextWord lx)) 0 = char_at (input lx) (position lx)).
  { unfold getNextWord in *. simpl in *.
    rewrite char_at_substring by lia. rewrite Nat.add_0_r. reflexivity. }
  destruct (snd (getNextWord lx)) as [|c rest]; [congruence|].
  exists rest. simpl in H0. unfold char_at in H0. simpl in H0. subst. reflexivity.
Qed.

Lemma classify_digit_word (c : ascii) (rest : string) :
  isDigit c = true -> classify_word (String c rest) = Identifier.
Proof.
  intros Hd. unfold classify_word. simpl.
  repeat match goal with
  | |- context [Ascii.eqb c ?x] =>
      destruct (Ascii.eqb_spec c x) as [->|_]; [vm_compute in Hd; discriminate Hd|]
  end.
  reflexivity.
Qed.

(** A call of [tokenize], on a freshly built lexer's table, with a digit
    under the cursor returns the word [getNextWord] scans there (digits and
    letters, stopping at ['.']) as an [Identifier], never as a number. *)
Theorem tokenize_digit_word (lx : Lexer) :
  position lx < String.length (input lx) ->
  isDigit (char_at (input lx) (position lx)) = true ->
  keywords lx = keyword_table ->
  tokenize lx = Returned [mkToken Identifier (snd (getNextWord lx))]
                         (fst (getNextWord lx)).
Proof.
  intros Hlt Hd Hk. pose proof (isDigit_isAlpha _ Hd) as Ha.
  unfold tokenize; simpl.
  rewrite (proj2 (Nat.ltb_lt _ _) Hlt). unfold loop_body.
  rewrite (tokenize_step_word lx [] Ha Hk).
  destruct (getNextWord_head lx Hlt Ha) as [rest Hw].
  assert (Hc : classify_word (snd (getNextWord lx)) = Identifier)
    by (rewrite Hw; exact (classify_digit_word _ _ Hd)).
  rewrite Hc. reflexivity.
Qed.

Lemma tokenize_digit_word_witness :
  tokenize (new_Lexer "12ab.5")
  = Returned [mkToken Identifier (snd (getNextWord (new_Lexer "12ab.5")))]
             (fst (getNextWord (new_Lexer "12ab.5"))).
Proof.
  apply tokenize_digit_word; [simpl; lia | reflexivity | reflexivity].
Defined.

(** [tokenize] on a freshly built lexer never returns a token of kind
    [Integer], [Float] or [String]. *)
Theorem tokenize_no_literal_kinds (s : string) (toks : list Token) (lx : Lexer) :
  tokenize (new_Lexer s) = Returned toks lx ->
  Forall (fun t => type t <> Integer /\ type t <> Float /\ type t <> String_) toks.
Proof.
  set (Q := fun t : Token => type t <> Integer /\ type t <> Float /\ type t <> String_).
  intros H.
  assert (Hinv : keywords lx = keyword_table /\ Forall Q toks).
  { revert H. unfold tokenize.
    apply (tokenize_loop_invariant
             (fun lx toks => keywords lx = keyword_table /\ Forall Q toks)).
    - intros lx0 tokens Hlt [Hk HQ].
      split; [rewrite tokenize_step_keywords; exact Hk|].
      destruct (isWhitespace (char_at (input lx0) (position lx0))) eqn:Hw.
      { unfold tokenize_step. rewrite Hw. exact HQ. }
      destruct (isAlpha (char_at (input lx0) (position lx0))) eqn:Ha.
      + rewrite (tokenize_step_word lx0 tokens Ha Hk). simpl.
        apply Forall_app. split; [exact HQ|]. constructor; [|constructor].
        unfold Q, classify_word; simpl.
        match goal with |- context [if ?b then _ else _] => destruct b end;
          repeat split; discriminate.
      + rewrite (tokenize_step_single lx0 tokens Hw Ha). simpl.
        apply Forall_app. split; [exact HQ|]. constructor; [|constructor].
        unfold Q, single_char_kind; simpl.
        repeat (match goal with |- context [if ?b then _ else _] => destruct b end);
          repeat split; discriminate.
    - split; [reflexivity | constructor]. }
  exact (proj2 Hinv).
Qed.

Lemma tokenize_no_literal_kinds_witness :
  Forall (fun t => type t <> Integer /\ type t <> Float /\ type t <> String_)
         [mkToken Identifier "42"].
Proof.
  apply (tokenize_no_literal_kinds "42" [mkToken Identifier "42"]
           (mkLexer "42" 2 keyword_table)).
  vm_compute. reflexivity.
Defined.

(** [getTokenTypeName] gives every token kind its own label. *)
Theorem getTokenTypeName_injective (t u : TokenType) :
  getTokenTypeName t = getTokenTypeName u -> t = u.
Proof. destruct t, u; simpl; intros H; first [reflexivity | discriminate H]. Qed.

Lemma getTokenTypeName_injective_witness : Keyword = Keyword.
Proof. apply (getTokenTypeName_injective Keyword Keyword). reflexivity. Defined.

Lemma string_app_assoc (a b c : string) : (a ++ b) ++ c = a ++ (b ++ c).
Proof.
  induction a as [|x a IH]; [reflexivity|].
  change (String x ((a ++ b) ++ c) = String x (a ++ (b ++ c))).
  rewrite IH. reflexivity.
Qed.

(** Printing two token sequences one after the other writes the same text
    as printing their concatenation. *)
Theorem printTokens_app (l1 l2 : list Token) :
  printTokens (l1 ++ l2)%list = printTokens l1 ++ printTokens l2.
Proof.
  induction l1 as [|t l1 IH]; simpl; [reflexivity|].
  rewrite IH, string_app_assoc. reflexivity.
Qed.

Lemma count_newlines_app (a b : string) :
  count_newlines (a ++ b) = count_newlines a + count_newlines b.
Proof.
  induction a as [|x a IH]; [reflexivity|].
  change (count_newlines (String x (a ++ b))
          = count_newlines (String x a) + count_newlines b).
  simpl. rewrite IH. lia.
Qed.

Lemma count_newlines_print_token (t : Token) :
  count_newlines (print_token t) = count_newlines (value t) + 1.
Proof.
  unfold print_token. rewrite !count_newlines_app.
  destruct (type t); simpl; lia.
Qed.

Lemma count_newlines_none (p : ascii -> bool) (w : string) :
  p "010"%char = false ->
  (forall i, i < String.length w -> p (char_at w i) = true) ->
  count_newlines w = 0.
Proof.
  intros Hn. induction w as [|c w IH]; intros Hall; simpl; [reflexivity|].
  assert (Hc : p c = true) by (apply (Hall 0); simpl; lia).
  destruct (Ascii.eqb_spec c "010"%char) as [->|_]; [congruence|].
  apply IH. intros i Hi. apply (Hall (S i)). simpl. lia.
Qed.

(** Printing the tokens returned by a call of [tokenize] writes exactly one
    line per token: no token text contains a newline. *)
Theorem printTokens_tokenize_lines (lx0 : Lexer) (toks : list Token) (lx : Lexer) :
  tokenize lx0 = Returned toks lx ->
  count_newlines (printTokens toks) = length toks.
Proof.
  intros H.
  assert (HF : Forall (fun t => count_newlines (value t) = 0) toks).
  { revert H. unfold tokenize.
    apply (tokenize_loop_invariant
             (fun _ toks => Forall (fun t => count_newlines (value t) = 0) toks)).
    - intros lx1 tokens Hlt HF.
      destruct (isWhitespace (char_at (input lx1) (position lx1))) eqn:Hw.
      { unfold tokenize_step. rewrite Hw. exact HF. }
      destruct (isAlpha (char_at (input lx1) (position lx1))) eqn:Ha.
      + unfold tokenize_step. rewrite Hw, Ha.
        unfold word_branch, getNextWord. simpl.
        destruct (if map_found _ _ then _ else _) as [m ty]. simpl.
        apply Forall_app. split; [exact HF|]. constructor; [|constructor].
        simpl. destruct (scan_run_spec isAlphaNumeric (input lx1) (position lx1)
                           ltac:(lia)) as [_ [_ [Hall _]]].
        exact (count_newlines_none isAlphaNumeric _ eq_refl Hall).
      + rewrite (tokenize_step_single lx1 tokens Hw Ha). simpl.
        apply Forall_app. split; [exact HF|]. constructor; [|constructor].
        simpl. destruct (Ascii.eqb_spec (char_at (input lx1) (position lx1)) "010"%char)
          as [He|_]; [rewrite He in Hw; discriminate Hw | reflexivity].
    - constructor. }
  clear H. induction toks as [|t toks IH]; [reflexivity|].
  change (count_newlines (print_token t ++ printTokens toks) = S (length toks)).
  inversion HF as [|? ? Ht HF']; subst.
  rewrite count_newlines_app, count_newlines_print_token, Ht, IH by exact HF'.
  reflexivity.
Qed.

Lemma printTokens_tokenize_lines_witness :
  count_newlines (printTokens [mkToken Keyword "return"]) = 1.
Proof.
  apply (printTokens_tokenize_lines (new_Lexer "return 0") [mkToken Keyword "return"]
           (mkLexer "return 0" 6 keyword_table)).
  vm_compute. reflexivity.
Defined.
